(** * Verification of the similarity engine of [00-create-names-table.ipynb]

    The notebook registers two Python functions as SQL UDFs,

      def dot_product(vec1, vec2): return float(np.dot(vec1, vec2))
      def vector_norm(vec, ord=2): return float(np.linalg.norm(vec, ord))

    and runs one SQL cell that scores every row of [retailer_names]
    against a query embedding, keeps the rows whose score is [> 0.95]
    and orders them by descending score.

    Numbers are Python floats, i.e. IEEE 754 binary64: they are embedded as
    Rocq's primitive [float], so every definition below evaluates.  Python
    exceptions are embedded as the [Raise] case of a small error monad.

    What numpy leaves to the library it is linked with is not fixed by the
    notebook: a BLAS [ddot] may fuse each multiply-add, run several
    accumulators and multiply one-element operands directly, and
    [np.add.reduce] sums in blocks.  The sums below are numpy's reference
    loops; the theorems about values are stated through [dot_product]
    and [vector_norm] themselves, or on operands on which every rounding
    agrees. *)

From Stdlib Require Import String List Bool Arith ZArith Lia.
From Stdlib Require Import Floats Permutation Sorted.
Import ListNotations.

Set Warnings "-inexact-float".
Local Open Scope float_scope.

(** ** Python exceptions and the error monad *)

(** The two ways a [ValueError] leaves numpy in the code paths below. *)
Inductive value_error : Type :=
| ShapesNotAligned (n m : nat)  (* "shapes (n,) and (m,) not aligned" *)
| ZeroSizeReduction.            (* "zero-size array to reduction operation" *)

Inductive exn : Type :=
| ValueError (why : value_error).

Inductive result (A : Type) : Type :=
| Ok (a : A)
| Raise (e : exn).

Arguments Ok {A} a.
Arguments Raise {A} e.

Definition bind {A B : Type} (r : result A) (k : A -> result B) : result B :=
  match r with
  | Ok a => k a
  | Raise e => Raise e
  end.

Notation "x <- r ;; k" := (bind r (fun x => k))
  (at level 61, r at next level, right associativity).

(** [mapM f l] runs [f] on the elements of [l] from left to right and stops
    at the first exception. *)
Fixpoint mapM {A B : Type} (f : A -> result B) (l : list A) : result (list B) :=
  match l with
  | [] => Ok []
  | a :: l' => b <- f a ;; bs <- mapM f l' ;; Ok (b :: bs)
  end.

(** What the specification calls [DimensionMismatch]: numpy's [ValueError]
    for two 1-D operands of different sizes. *)
Definition DimensionMismatch (e : exn) : Prop :=
  match e with
  | ValueError (ShapesNotAligned n m) => n <> m
  | ValueError ZeroSizeReduction => False
  end.

(** ** numpy on 1-D float64 arrays *)

Module np.

(** A 1-D array of float64, as [np.asarray] makes it from a list of
    Python floats. *)
Definition ndarray := list float.

(** The inner loop of [np.dot] for float64 operands of length [n], numpy's
    own [DOUBLE_dot], used when no BLAS is linked:
    [sum = 0; for (i = 0; i < n; i++) sum += ip1[i] * ip2[i];].
    A BLAS [ddot] computes the same sum with its own rounding. *)
Fixpoint DOUBLE_dot_from (steps i : nat) (ip1 ip2 : ndarray) (sum : float)
  : float :=
  match steps with
  | O => sum
  | S steps' =>
      DOUBLE_dot_from steps' (S i) ip1 ip2
        (sum + nth i ip1 0 * nth i ip2 0)
  end.

Definition DOUBLE_dot (ip1 ip2 : ndarray) (n : nat) : float :=
  DOUBLE_dot_from n 0 ip1 ip2 0.

(** [np.dot(a, b)] for 1-D [a] and [b]: the shapes must agree. *)
Definition dot (a b : ndarray) : result float :=
  if Nat.eqb (length a) (length b)
  then Ok (DOUBLE_dot a b (length a))
  else Raise (ValueError (ShapesNotAligned (length a) (length b))).

(** *** [np.linalg.norm] for a 1-D operand *)

(** [np.maximum] and [np.minimum] on two floats: a NaN operand wins. *)
Definition maximum (a b : float) : float :=
  if (b <=? a) || is_nan a then a else b.

Definition minimum (a b : float) : float :=
  if (a <=? b) || is_nan a then a else b.

(** [x.max(initial=initial)]: the maximum of [initial] and the elements. *)
Definition max_initial (initial : float) (x : ndarray) : float :=
  fold_left maximum x initial.

(** [x.min()]: an empty operand has no minimum. *)
Definition min (x : ndarray) : result float :=
  match x with
  | [] => Raise (ValueError ZeroSizeReduction)
  | x0 :: xs => Ok (fold_left minimum xs x0)
  end.

(** [np.add.reduce(x)], accumulated in sequence order from [0.0]; numpy
    adds in blocks of eight accumulators from eight elements on, which
    gives the same float whenever the partial sums are exact, as they are
    for the 0/1 indicators of the order [0]. *)
Definition add_reduce (x : ndarray) : float := fold_left add x 0.

(** [(x != 0).astype(float)] *)
Definition nonzero_indicator (x : ndarray) : ndarray :=
  map (fun xi => if xi =? 0 then 0 else 1) x.

Module linalg.
Section Norm.

(** The C library's [pow], which numpy's [**] calls on float64: a
    collaborator whose rounding is not fixed here, taken as it comes. *)
Variable npy_pow : float -> float -> float.

(** [np.linalg.norm(x, ord)] with [axis=None], for 1-D [x] and a numeric
    [ord], branch by branch as numpy's [linalg.norm] has them.  The order
    [inf] is [abs(x).max(initial=0)] as in numpy 2, which gives [0.0] on the
    empty vector; numpy 1 had [abs(x).max()], which raises there and agrees
    everywhere else. *)
Definition norm (x : ndarray) (ord : float) : result float :=
  if ord =? 2 then
    (* the fast path [ord == 2 and ndim == 1]: [sqrt(x.dot(x))] *)
    sqnorm <- dot x x ;; Ok (sqrt sqnorm)
  else if ord =? infinity then Ok (max_initial 0 (map abs x))
  else if ord =? neg_infinity then min (map abs x)
  else if ord =? 0 then Ok (add_reduce (nonzero_indicator x))
  else if ord =? 1 then Ok (add_reduce (map abs x))
  else
    (* [absx **= ord; ret = add.reduce(absx); ret **= reciprocal(ord)] *)
    let absx := map (fun xi => npy_pow (abs xi) ord) x in
    let ret := add_reduce absx in
    Ok (npy_pow ret (1 / ord)).

End Norm.
End linalg.

End np.

(** ** The registered UDFs *)

(** [def dot_product(vec1, vec2): return float(np.dot(vec1, vec2))] *)
Definition dot_product (vec1 vec2 : list float) : result float :=
  d <- np.dot vec1 vec2 ;; Ok d.

Section VectorNorm.

Variable npy_pow : float -> float -> float.

(** [def vector_norm(vec, ord=2): return float(np.linalg.norm(vec, ord))];
    [None] stands for a call that leaves [ord] out. *)
Definition vector_norm (vec : list float) (ord : option float)
  : result float :=
  let ord := match ord with Some p => p | None => 2 end in
  n <- np.linalg.norm npy_pow vec ord ;; Ok n.

End VectorNorm.

(** ** The SQL engine on DOUBLE values *)

Module spark.

(** [SQLOrderingUtil.compareDoubles]:
    [if (x == y) 0 else java.lang.Double.compare(x, y)], where
    [Double.compare] ranks NaN equal to itself and above every other
    value. *)
Definition compareDoubles (x y : float) : comparison :=
  if x =? y then Eq
  else if x <? y then Lt
  else if y <? x then Gt
  else if is_nan x then (if is_nan y then Eq else Gt)
  else Lt.

(** The SQL operator [>] on DOUBLE. *)
Definition gt (x y : float) : bool :=
  match compareDoubles x y with
  | Gt => true
  | _ => false
  end.

(** [x >= y] on DOUBLE. *)
Definition ge (x y : float) : bool :=
  match compareDoubles x y with
  | Lt => false
  | _ => true
  end.

End spark.

(** ** The table and the search cell *)

(** [filterM p l] keeps the elements of [l] on which [p] returns [True],
    from left to right, and stops at the first exception. *)
Fixpoint filterM {A : Type} (p : A -> result bool) (l : list A)
  : result (list A) :=
  match l with
  | [] => Ok []
  | a :: l' =>
      b <- p a ;; kept <- filterM p l' ;; Ok (if b then a :: kept else kept)
  end.

(** A row of [retailer_names] once the vector column is built. *)
Record NameRecord : Type := {
  cust_name : string;
  vector_embedding : list float
}.

(** A row of the search cell's result:
    [t.cust_name, t.vector_embedding, q.emb, cosine_sim]. *)
Record SimilarityResult : Type := {
  t_cust_name : string;
  t_vector_embedding : list float;
  q_emb : list float;
  cosine_sim : float
}.

(** The literal of the [WHERE] clause. *)
Definition threshold : float := 0.95.

(** [FROM retailer_names t, query_embedding q]: the cross join of the table
    with the rows of the CTE. *)
Definition from_clause (tbl : list NameRecord)
           (query_embedding : list (list float))
  : list (NameRecord * list float) :=
  list_prod tbl query_embedding.

(** [WHERE dot_product(t.vector_embedding, q.emb) > 0.95] *)
Definition where_clause (tq : NameRecord * list float) : result bool :=
  let (t, q) := tq in
  s <- dot_product (vector_embedding t) q ;;
  Ok (spark.gt s threshold).

(** [SELECT t.cust_name, t.vector_embedding, q.emb,
            dot_product(t.vector_embedding, q.emb) AS cosine_sim] *)
Definition select_list (tq : NameRecord * list float)
  : result SimilarityResult :=
  let (t, q) := tq in
  s <- dot_product (vector_embedding t) q ;;
  Ok {| t_cust_name := cust_name t;
        t_vector_embedding := vector_embedding t;
        q_emb := q;
        cosine_sim := s |}.

(** [ORDER BY cosine_sim DESC], as a stable insertion sort. *)
Fixpoint insert_desc (r : SimilarityResult) (l : list SimilarityResult)
  : list SimilarityResult :=
  match l with
  | [] => [r]
  | r' :: l' =>
      if spark.gt (cosine_sim r') (cosine_sim r)
      then r' :: insert_desc r l'
      else r :: l
  end.

Definition order_by_cosine_sim_desc (l : list SimilarityResult)
  : list SimilarityResult :=
  fold_right insert_desc [] l.

(** The search cell, for the one embedding [query] that the CTE
    [query_embedding] holds: an exception of the UDF on any row fails the
    whole statement. *)
Definition search (query : list float) (tbl : list NameRecord)
  : result (list SimilarityResult) :=
  kept <- filterM where_clause (from_clause tbl [query]) ;;
  rows <- mapM select_list kept ;;
  Ok (order_by_cosine_sim_desc rows).

(** ** The specification's words *)

(** The elementwise products [a[i] * b[i]]. *)
Fixpoint elementwise_products (a b : list float) : list float :=
  match a, b with
  | x :: a', y :: b' => x * y :: elementwise_products a' b'
  | _, _ => []
  end.

(** The sum of a sequence of floats, accumulated from [0] in sequence order. *)
Definition fsum (l : list float) : float := fold_left add l 0.

(** The score of a candidate, in the specification's words: the raw dot
    product of its embedding with the query. *)
Definition score (query : list float) (c : NameRecord) : float :=
  fsum (elementwise_products (vector_embedding c) query).

(** A candidate with its score. *)
Definition scored (query : list float) (c : NameRecord) : SimilarityResult :=
  {| t_cust_name := cust_name c;
     t_vector_embedding := vector_embedding c;
     q_emb := query;
     cosine_sim := score query c |}.

(** The score is strictly greater than the threshold. *)
Definition above_threshold (query : list float) (c : NameRecord) : bool :=
  spark.gt (score query c) threshold.

(** [s] gives, for every candidate of the table, the score that
    [dot_product] returns on its embedding and the query. *)
Definition scores_of (query : list float) (tbl : list NameRecord)
           (s : NameRecord -> float) : Prop :=
  forall c, In c tbl -> dot_product (vector_embedding c) query = Ok (s c).

(** A candidate as a result row, with the score [s] gives it. *)
Definition with_score (query : list float) (s : NameRecord -> float)
           (c : NameRecord) : SimilarityResult :=
  {| t_cust_name := cust_name c;
     t_vector_embedding := vector_embedding c;
     q_emb := query;
     cosine_sim := s c |}.

(** Earlier rows score at least as high as later ones. *)
Definition desc (r1 r2 : SimilarityResult) : Prop :=
  spark.ge (cosine_sim r1) (cosine_sim r2) = true.

(** A candidate whose embedding has the dimension of the query. *)
Definition same_dimension (query : list float) (c : NameRecord) : Prop :=
  length (vector_embedding c) = length query.

(** ** The dataset and vectorization cells *)

Module notebook.

Local Open Scope string_scope.

(** The dummy dataset, as the four dataset cells build it:
    [retailer_names = [...]] and three times [retailer_names += [...]]. *)
Definition retailer_names : list string :=
  ([ "Walmart"; "Amazon"; "Costco"; "Target"; "The Home Depot"; "Walgreens";
     "Kroger"; "CVS"; "Lowe's"; "Best Buy"; "Macy's"; "Nordstrom"; "Sears";
     "Sam's Club"; "Aldi"; "IKEA"; "Publix"; "Dollar General";
     "Trader Joe's"; "7-Eleven" ]
   ++ [ "AMAZILES MARIA GONCALVES"; "AMAZING - STADIUM"; "AMAZING STYLE SLU";
        "AMAZON EU SARL"; "AMAZON EU SARL"; "AMAZON EU SARL   **IA**";
        "AMAZON EU SARL -CZE-"; "AMAZON EU SARL -POLEN-";
        "AMAZON EU SARL -POLEN-"; "AMAZON EU SARL / BUY   **IA**";
        "AMAZON EU SARL / MUTTER *IA*"; "AMAZON EU SARL SUCURSAL ESPANA";
        "AMAZON EU SARL SUCURSAL ESPANA"; "AMAZON EU SARL/MEDIA EU SARL";
        "AMAZON EU SARL/MEDIA EU SARL"; "AMAZON FOOTWEAR";
        "AMAZON PAN EU PARENT"; "AMAZON SERVS VAREJO DO BR LTDA";
        "AMAZON SMART HOME SERVICES"; "AMAZON VINE PROMO"; "AMAZON.COM LLC";
        "AMAZON.COM LLC"; "AMAZON.COM.CA INC"; "AMAZONE"; "ARIZONA/AMAZONE";
        "Amazon Japan K.K." ]
   ++ [ "KOHL's"; "Kohl's"; "Kohls"; "Kohls" ]
   ++ [ "Macy's"; "Macys" ])%list.

(** How a cell of the notebook ends when it does not finish: the two ways
    that depend on the data. *)
Inductive cell_error : Type :=
| CANNOT_INFER_EMPTY_SCHEMA     (* [createDataFrame] on an empty list *)
| PythonException (e : exn).    (* an exception raised inside a UDF *)

Inductive outcome (A : Type) : Type :=
| Done (a : A)
| Failed (e : cell_error).

Arguments Done {A} a.
Arguments Failed {A} e.

(** [spark.createDataFrame([(name,) for name in retailer_names],
    ["cust_name"])]: the column type is inferred from the rows, so there
    must be one. *)
Definition createDataFrame (names : list string) : outcome (list string) :=
  match names with
  | [] => Failed CANNOT_INFER_EMPTY_SCHEMA
  | _ :: _ => Done names
  end.

Section Cells.

(** The hosted embedding endpoint behind [ai_query(endpoint, text)]: a
    collaborator, taken as a function of its two arguments. *)
Variable ai_query : string -> string -> list float.

(** The cell that builds the vector column:
    [SELECT cust_name,
            ai_query('databricks-gte-large-en', cust_name) AS vector_embedding
     FROM retailer_names]. *)
Definition build_vector_column (tbl : list string) : list NameRecord :=
  map (fun name =>
         {| cust_name := name;
            vector_embedding := ai_query "databricks-gte-large-en" name |})
      tbl.

(** The CTE of the search cell:
    [SELECT ai_query('databricks-gte-large-en', 'kohls') AS emb]. *)
Definition query_embedding : list float :=
  ai_query "databricks-gte-large-en" "kohls".

(** The search cell on the stored table. *)
Definition test_the_embeddings (tbl : list NameRecord)
  : outcome (list SimilarityResult) :=
  match search query_embedding tbl with
  | Ok rows => Done rows
  | Raise e => Failed (PythonException e)
  end.

(** The cells in notebook order on a list of names, with the widgets at
    their defaults, so that the table the search cell names is the one the
    cells above it wrote: store the names, build and store the vector
    column, search. *)
Definition run_all (names : list string) : outcome (list SimilarityResult) :=
  match createDataFrame names with
  | Done df => test_the_embeddings (build_vector_column df)
  | Failed e => Failed e
  end.

(** The embedding of a name has the dimension of the query's embedding. *)
Definition embeds_like_query (n : string) : Prop :=
  length (ai_query "databricks-gte-large-en" n) = length query_embedding.

(** Whether a name matches: what [dot_product] returns on its embedding
    and the query's is above the threshold. *)
Definition name_matches (n : string) : bool :=
  match dot_product (ai_query "databricks-gte-large-en" n) query_embedding with
  | Ok s => spark.gt s threshold
  | Raise _ => false
  end.

(** How many rows of a result carry the name [n]. *)
Definition times_returned (n : string) (rows : list SimilarityResult) : nat :=
  length (filter (fun r => String.eqb (t_cust_name r) n) rows).

End Cells.

(** An embedder for closed examples: two dimensions, names that start with
    a [k] or a [K] near the first axis and the others on the second. *)
Definition toy_ai_query (endpoint text : string) : list float :=
  if String.prefix "k" text || String.prefix "K" text
  then [1; 0] else [0; 1].

End notebook.

(** ** Definitions used by the proofs *)

(** A key into [Z * Z * Z] whose lexicographic order is the engine's order
    on DOUBLE: class first (NaN highest), then exponent, then mantissa. *)
Definition sf_key (f : spec_float) : Z * Z * Z :=
  match f with
  | S754_nan => (3, 0, 0)
  | S754_infinity false => (2, 0, 0)
  | S754_infinity true => (-2, 0, 0)
  | S754_zero _ => (0, 0, 0)
  | S754_finite false m e => (1, e, Zpos m)
  | S754_finite true m e => (-1, - e, Zneg m)
  end%Z.

Definition lex_compare (a b : Z * Z * Z) : comparison :=
  let '(a1, a2, a3) := a in
  let '(b1, b2, b3) := b in
  match (a1 ?= b1)%Z with
  | Eq => match (a2 ?= b2)%Z with
          | Eq => (a3 ?= b3)%Z
          | c => c
          end
  | c => c
  end.

Definition key (x : float) : Z * Z * Z := sf_key (Prim2SF x).

(** A stand-in for [**] in closed examples whose [ord] selects a branch of
    [np.linalg.norm] that never raises to a power. *)
Definition no_pow : float -> float -> float := fun _ _ => nan.

(** The candidates of the specification's example. *)
Definition example_candidates : list NameRecord :=
  [ {| cust_name := "A"; vector_embedding := [1; 0] |};
    {| cust_name := "B"; vector_embedding := [0; 1] |};
    {| cust_name := "C"; vector_embedding := [0.99; 0.14] |} ].

(** A float whose sign bit is clear, or NaN: never below zero. *)
Definition sf_nonneg (f : spec_float) : Prop :=
  match f with
  | S754_nan => True
  | S754_zero s | S754_infinity s | S754_finite s _ _ => s = false
  end.

(** A float that is a number. *)
Definition not_nan (x : float) : Prop := is_nan x = false.

(** A vector with a NaN among its elements. *)
Definition has_nan (v : list float) : Prop :=
  Exists (fun x => is_nan x = true) v.

(** * Proofs *)

(** ** Facts about binary64 arithmetic *)

(** Case analysis on the IEEE class and sign of a float. *)
Ltac sf_cases x := destruct (Prim2SF x) as [[]|[]| |[] ? ?].

Section Binary64.

(** Rounding a product does not depend on the order of the factors. *)
Lemma SF64mul_comm (x y : spec_float) : SF64mul x y = SF64mul y x.
Proof.
  unfold SF64mul, SFmul.
  destruct x as [sx|sx| |sx mx ex], y as [sy|sy| |sy my ey];
    try reflexivity;
    rewrite 1?(xorb_comm sx sy), 1?(Pos.mul_comm mx my), 1?(Z.add_comm ex ey);
    reflexivity.
Qed.

Lemma mul_comm (x y : float) : x * y = y * x.
Proof.
  apply Prim2SF_inj. rewrite !mul_spec. apply SF64mul_comm.
Qed.

Lemma compareDoubles_key (x y : float) :
  spark.compareDoubles x y = lex_compare (key x) (key y).
Proof.
  unfold spark.compareDoubles, is_nan, key.
  rewrite !eqb_spec, !ltb_spec. unfold SFeqb, SFltb.
  destruct (Prim2SF x) as [sx|sx| |sx mx ex], (Prim2SF y) as [sy|sy| |sy my ey];
    try destruct sx; try destruct sy; try reflexivity.
  all: cbn -[Z.compare Pos.compare_cont].
  all: rewrite ?Z.compare_refl, ?Pos.compare_cont_refl; try reflexivity.
  all: change (Pos.compare_cont Eq my mx) with (Pos.compare my mx);
    change (Pos.compare_cont Eq mx my) with (Pos.compare mx my);
    try change (Z.neg mx ?= Z.neg my)%Z with (CompOpp (mx ?= my)%positive);
    try change (Z.pos mx ?= Z.pos my)%Z with (mx ?= my)%positive;
    rewrite ?Z.compare_opp;
    rewrite (Z.compare_antisym ex ey), (Pos.compare_antisym mx my);
    destruct (ex ?= ey)%Z; destruct (mx ?= my)%positive; reflexivity.
Qed.

Lemma lex_compare_antisym (a b : Z * Z * Z) :
  lex_compare b a = CompOpp (lex_compare a b).
Proof.
  destruct a as [[a1 a2] a3], b as [[b1 b2] b3]; simpl.
  rewrite (Z.compare_antisym a1 b1), (Z.compare_antisym a2 b2),
    (Z.compare_antisym a3 b3).
  destruct (a1 ?= b1)%Z, (a2 ?= b2)%Z, (a3 ?= b3)%Z; reflexivity.
Qed.

Lemma lex_compare_not_lt_trans (a b c : Z * Z * Z) :
  lex_compare a b <> Lt -> lex_compare b c <> Lt -> lex_compare a c <> Lt.
Proof.
  destruct a as [[a1 a2] a3], b as [[b1 b2] b3], c as [[c1 c2] c3]; simpl.
  repeat match goal with
         | |- context [(?u ?= ?v)%Z] => destruct (Z.compare_spec u v)
         end; intros; try congruence; lia.
Qed.

(** The IEEE [<] agrees with the order of the keys. *)
Lemma ltb_key (x y : float) :
  (x <? y) = true -> lex_compare (key x) (key y) = Lt.
Proof.
  unfold key. rewrite ltb_spec. unfold SFltb.
  destruct (Prim2SF x) as [sx|sx| |sx mx ex], (Prim2SF y) as [sy|sy| |sy my ey];
    try destruct sx; try destruct sy; simpl; try congruence.
  all: change (Pos.compare_cont Eq mx my) with (Pos.compare mx my);
    rewrite ?Z.compare_opp, 1?(Z.compare_antisym ex ey);
    destruct (ex ?= ey)%Z; simpl; try congruence;
    destruct (mx ?= my)%positive; simpl; congruence.
Qed.

End Binary64.

(** ** The engine's order on DOUBLE is a total preorder *)

Module spark_facts.

Lemma gt_ge (x y : float) : spark.gt x y = true -> spark.ge x y = true.
Proof.
  unfold spark.gt, spark.ge. destruct (spark.compareDoubles x y); congruence.
Qed.

Lemma not_gt_ge (x y : float) : spark.gt y x = false -> spark.ge x y = true.
Proof.
  unfold spark.gt, spark.ge. rewrite !compareDoubles_key.
  rewrite (lex_compare_antisym (key x) (key y)).
  destruct (lex_compare (key x) (key y)); simpl; congruence.
Qed.

Lemma ge_trans (x y z : float) :
  spark.ge x y = true -> spark.ge y z = true -> spark.ge x z = true.
Proof.
  unfold spark.ge. rewrite !compareDoubles_key. intros Hxy Hyz.
  assert (Hxz : lex_compare (key x) (key z) <> Lt).
  { apply lex_compare_not_lt_trans with (b := key y).
    - destruct (lex_compare (key x) (key y)); congruence.
    - destruct (lex_compare (key y) (key z)); congruence. }
  destruct (lex_compare (key x) (key z)); congruence.
Qed.

(** [>] is strict: a value equal to the bound does not pass. *)
Lemma gt_neq (x y : float) : spark.gt x y = true -> (x =? y) = false.
Proof.
  unfold spark.gt, spark.compareDoubles.
  destruct (x =? y); [discriminate | reflexivity].
Qed.

(** On a value that is not NaN, [>] is the IEEE comparison. *)
Lemma gt_ieee (x y : float) :
  is_nan x = false -> spark.gt x y = true -> (y <? x) = true.
Proof.
  unfold spark.gt, spark.compareDoubles. intros Hx.
  destruct (x =? y); [discriminate|].
  destruct (x <? y); [discriminate|].
  destruct (y <? x); [reflexivity|].
  rewrite Hx. discriminate.
Qed.

(** What is above a bound in the IEEE comparison passes [>]. *)
Lemma ieee_gt (x y : float) : (y <? x) = true -> spark.gt x y = true.
Proof.
  intros Hlt. unfold spark.gt. rewrite compareDoubles_key.
  rewrite (lex_compare_antisym (key y) (key x)), (ltb_key y x Hlt).
  reflexivity.
Qed.

End spark_facts.

(** ** [dot_product] *)

Section DotProduct.

(** Dropping the heads of both operands shifts the loop index by one. *)
Lemma DOUBLE_dot_from_cons (steps i : nat) (x y : float) (a b : list float)
      (sum : float) :
  np.DOUBLE_dot_from steps (S i) (x :: a) (y :: b) sum
  = np.DOUBLE_dot_from steps i a b sum.
Proof.
  revert i sum. induction steps as [|steps IH]; intros i sum; simpl.
  - reflexivity.
  - apply IH.
Qed.

(** The indexed loop over operands of one length is the left-to-right sum
    of the elementwise products, from any starting accumulator. *)
Lemma DOUBLE_dot_from_fold (a : list float) :
  forall (b : list float) (sum : float),
    length a = length b ->
    np.DOUBLE_dot_from (length a) 0 a b sum
    = fold_left add (elementwise_products a b) sum.
Proof.
  induction a as [|x a IH]; intros [|y b] sum Hlen; simpl in *;
    try discriminate; try reflexivity.
  rewrite DOUBLE_dot_from_cons. apply IH. now injection Hlen.
Qed.

Lemma np_dot_eq (a b : list float) :
  length a = length b ->
  np.dot a b = Ok (fsum (elementwise_products a b)).
Proof.
  intros Hlen. unfold np.dot, np.DOUBLE_dot, fsum.
  rewrite Hlen, Nat.eqb_refl.
  rewrite <- Hlen. now rewrite DOUBLE_dot_from_fold.
Qed.

Lemma dot_product_eq (a b : list float) :
  length a = length b ->
  dot_product a b = Ok (fsum (elementwise_products a b)).
Proof.
  intros Hlen. unfold dot_product. now rewrite np_dot_eq.
Qed.

Lemma dot_product_mismatch (a b : list float) :
  length a <> length b ->
  dot_product a b = Raise (ValueError (ShapesNotAligned (length a) (length b))).
Proof.
  intros Hlen. unfold dot_product, np.dot.
  apply Nat.eqb_neq in Hlen. now rewrite Hlen.
Qed.

Lemma elementwise_products_comm (a : list float) :
  forall b, elementwise_products a b = elementwise_products b a.
Proof.
  induction a as [|x a IH]; intros [|y b]; simpl; try reflexivity.
  now rewrite IH, mul_comm.
Qed.

End DotProduct.

(** C3. On operands of different lengths [dot_product] fails with the
    dimension-mismatch error; so it does on [[1,2]] and [[1,2,3]]. *)
Theorem dot_product_dimension_mismatch (a b : list float) :
  length a <> length b ->
  exists e, dot_product a b = Raise e /\ DimensionMismatch e.
Proof.
  intros Hlen. eexists. split.
  - now apply dot_product_mismatch.
  - exact Hlen.
Qed.

Lemma dot_product_dimension_mismatch_witness :
  exists e, dot_product [1; 2] [1; 2; 3] = Raise e /\ DimensionMismatch e.
Proof.
  apply (dot_product_dimension_mismatch [1; 2] [1; 2; 3]).
  simpl. discriminate.
Defined.

(** C8. For operands of one length, [dot_product a b] and [dot_product b a]
    return the same float; unless that float is NaN, the two results also
    compare equal under [==]. *)
Theorem dot_product_comm (a b : list float) :
  length a = length b ->
  dot_product a b = dot_product b a
  /\ exists d,
       dot_product a b = Ok d /\ dot_product b a = Ok d
       /\ (is_nan d = false -> (d =? d) = true).
Proof.
  intros Hlen.
  rewrite (dot_product_eq a b Hlen), (dot_product_eq b a (eq_sym Hlen)).
  rewrite (elementwise_products_comm b a).
  split; [reflexivity|]. eexists. repeat split.
  unfold is_nan. now destruct (_ =? _).
Qed.

Lemma dot_product_comm_witness :
  dot_product [0.99; 0.14] [1; 0] = dot_product [1; 0] [0.99; 0.14]
  /\ exists d,
       dot_product [0.99; 0.14] [1; 0] = Ok d
       /\ dot_product [1; 0] [0.99; 0.14] = Ok d
       /\ (is_nan d = false -> (d =? d) = true).
Proof.
  apply (dot_product_comm [0.99; 0.14] [1; 0]). reflexivity.
Defined.

(** ** [vector_norm] *)

Section VectorNormFacts.

Variable npy_pow : float -> float -> float.

Lemma elementwise_products_diag (v : list float) :
  elementwise_products v v = map (fun x => x * x) v.
Proof.
  induction v as [|x v IH]; simpl; [reflexivity | now rewrite IH].
Qed.

(** With [ord] left out or equal to [2], the norm is the square root of
    what [dot_product] returns on the operand with itself. *)
Lemma vector_norm_2_sqrt_dot (v : list float) (ord : option float) :
  ord = None \/ ord = Some 2 ->
  vector_norm npy_pow v ord = Ok (sqrt (fsum (elementwise_products v v))).
Proof.
  intros [-> | ->]; unfold vector_norm, np.linalg.norm;
    change (2 =? 2) with true; cbv iota;
    rewrite (np_dot_eq v v eq_refl); reflexivity.
Qed.

(** A value [<= 0] is [==] to no value [> 0]. *)
Lemma nonpositive_neq_positive (p c : float) :
  (p <=? 0) = true -> (0 <? c) = true -> (p =? c) = false.
Proof.
  rewrite leb_spec, ltb_spec, eqb_spec.
  change (Prim2SF 0) with (S754_zero false).
  unfold SFleb, SFltb, SFeqb.
  sf_cases p; sf_cases c; simpl; congruence.
Qed.

(** [-inf] is not [== 0]. *)
Lemma neg_infinity_neq_zero (p : float) :
  (p =? neg_infinity) = true -> (p =? 0) = false.
Proof.
  rewrite !eqb_spec.
  change (Prim2SF 0) with (S754_zero false).
  change (Prim2SF neg_infinity) with (S754_infinity true).
  unfold SFeqb. sf_cases p; simpl; congruence.
Qed.

End VectorNormFacts.


(** C10. On two empty sequences [dot_product] raises nothing and returns
    [0.0]; the norm of order [2] of the empty sequence is [0.0]. *)
Theorem empty_operands :
  forall npy_pow : float -> float -> float,
    dot_product [] [] = Ok 0
    /\ vector_norm npy_pow [] (Some 2) = Ok 0
    /\ vector_norm npy_pow [] None = Ok 0.
Proof.
  intros npy_pow. repeat split.
Qed.

(** C7, as stated, fails: for [a = [1, 1]] the dot product is [2.0], the norm
    is [sqrt 2.0], and the square of that float is not [2.0]. *)
Lemma norm_squared_differs_from_dot :
  dot_product [1; 1] [1; 1] = Ok 2
  /\ vector_norm no_pow [1; 1] (Some 2) = Ok (sqrt 2)
  /\ (sqrt 2 * sqrt 2 =? 2) = false
  /\ sqrt 2 * sqrt 2 = 2.0000000000000004.
Proof.
  repeat split.
Qed.

(** C7, amended. For every vector [a], [vector_norm(a, 2)] is the
    floating-point square root of [dot_product(a, a)], which never fails;
    nothing is promised about squaring the rounded root. *)
Theorem vector_norm_is_sqrt_of_dot_product :
  forall (npy_pow : float -> float -> float) (a : list float),
  exists d,
    dot_product a a = Ok d
    /\ vector_norm npy_pow a (Some 2) = Ok (sqrt d)
    /\ vector_norm npy_pow a None = Ok (sqrt d).
Proof.
  intros npy_pow a. exists (fsum (elementwise_products a a)).
  split; [|split].
  - now apply dot_product_eq.
  - apply vector_norm_2_sqrt_dot. now right.
  - apply vector_norm_2_sqrt_dot. now left.
Qed.

(** C6, as stated, fails: [0] is a non-positive order, and
    [vector_norm([1, 0, 2], 0)] returns [2.0], the number of non-zero
    elements, instead of failing; with order [-inf] the same vector gives
    [0.0], its smallest absolute value. *)
Lemma vector_norm_order_zero_returns :
  (0 <=? 0) = true
  /\ vector_norm no_pow [1; 0; 2] (Some 0) = Ok 2
  /\ (neg_infinity <=? 0) = true
  /\ vector_norm no_pow [1; 0; 2] (Some neg_infinity) = Ok 0.
Proof.
  repeat split.
Qed.

(** C6, amended. For a non-positive order [p], [vector_norm(v, p)] raises no
    error about the order and returns a float: for [p = 0] the sum of the
    0/1 indicators of the non-zero elements, for [p = -inf] the smallest
    [abs] of an element (only the empty vector has none), and a float for
    every other [p < 0] as well. *)
Theorem vector_norm_nonpositive_order_returns :
  forall (npy_pow : float -> float -> float) (v : list float) (p : float),
    (p <=? 0) = true ->
    v <> [] \/ (p =? neg_infinity) = false ->
    exists r,
      vector_norm npy_pow v (Some p) = Ok r
      /\ ((p =? 0) = true -> r = np.add_reduce (np.nonzero_indicator v))
      /\ ((p =? neg_infinity) = true -> np.min (map abs v) = Ok r).
Proof.
  intros npy_pow v p Hp Hv.
  unfold vector_norm, np.linalg.norm.
  rewrite (nonpositive_neq_positive p 2 Hp eq_refl).
  rewrite (nonpositive_neq_positive p infinity Hp eq_refl).
  rewrite (nonpositive_neq_positive p 1 Hp eq_refl).
  destruct (p =? neg_infinity) eqn:Hninf.
  - destruct v as [|x v].
    + destruct Hv as [Hv | Hv]; [now elim Hv | discriminate].
    + rewrite (neg_infinity_neq_zero p Hninf).
      simpl. eexists. split; [reflexivity|].
      split; intros; [discriminate | reflexivity].
  - destruct (p =? 0) eqn:H0; simpl; eexists; (split; [reflexivity|]);
      split; intros; try discriminate; reflexivity.
Qed.

Lemma vector_norm_nonpositive_order_returns_witness :
  exists r,
    vector_norm no_pow [1; 0; 2] (Some neg_infinity) = Ok r
    /\ ((neg_infinity =? 0) = true ->
        r = np.add_reduce (np.nonzero_indicator [1; 0; 2]))
    /\ ((neg_infinity =? neg_infinity) = true ->
        np.min (map abs [1; 0; 2]) = Ok r).
Proof.
  apply (vector_norm_nonpositive_order_returns no_pow [1; 0; 2] neg_infinity).
  - reflexivity.
  - left. discriminate.
Defined.

(** ** The search cell *)

Section Search.

Variable query : list float.

Lemma from_clause_single (tbl : list NameRecord) :
  from_clause tbl [query] = map (fun c => (c, query)) tbl.
Proof.
  unfold from_clause. induction tbl as [|c tbl IH]; simpl.
  - reflexivity.
  - now rewrite IH.
Qed.

Lemma where_clause_ok (c : NameRecord) :
  same_dimension query c ->
  where_clause (c, query) = Ok (above_threshold query c).
Proof.
  intros Hc. unfold where_clause. now rewrite (dot_product_eq _ _ Hc).
Qed.

Lemma where_clause_raise (c : NameRecord) :
  ~ same_dimension query c ->
  where_clause (c, query)
  = Raise (ValueError (ShapesNotAligned (length (vector_embedding c))
                                        (length query))).
Proof.
  intros Hc. unfold where_clause. now rewrite (dot_product_mismatch _ _ Hc).
Qed.

Lemma select_list_ok (c : NameRecord) :
  same_dimension query c -> select_list (c, query) = Ok (scored query c).
Proof.
  intros Hc. unfold select_list. now rewrite (dot_product_eq _ _ Hc).
Qed.

Lemma filterM_where_ok (tbl : list NameRecord) :
  Forall (same_dimension query) tbl ->
  filterM where_clause (map (fun c => (c, query)) tbl)
  = Ok (map (fun c => (c, query)) (filter (above_threshold query) tbl)).
Proof.
  induction 1 as [|c tbl Hc _ IH]; cbn [map filterM filter].
  - reflexivity.
  - rewrite (where_clause_ok c Hc), IH. cbn [bind].
    now destruct (above_threshold query c).
Qed.

Lemma mapM_select_ok (tbl : list NameRecord) :
  Forall (same_dimension query) tbl ->
  mapM select_list (map (fun c => (c, query)) tbl)
  = Ok (map (scored query) tbl).
Proof.
  induction 1 as [|c tbl Hc _ IH]; cbn [map mapM].
  - reflexivity.
  - now rewrite (select_list_ok c Hc), IH.
Qed.

Lemma Forall_filter {A : Type} (P : A -> Prop) (f : A -> bool) (l : list A) :
  Forall P l -> Forall P (filter f l).
Proof.
  induction 1 as [|a l Ha _ IH]; simpl.
  - constructor.
  - destruct (f a); [now constructor | exact IH].
Qed.

(** On a table of the query's dimension the statement raises nothing, and
    its rows are the sorted scored matches. *)
Lemma search_ok (tbl : list NameRecord) :
  Forall (same_dimension query) tbl ->
  search query tbl
  = Ok (order_by_cosine_sim_desc
          (map (scored query) (filter (above_threshold query) tbl))).
Proof.
  intros Hdim. unfold search.
  rewrite from_clause_single, (filterM_where_ok tbl Hdim). simpl.
  now rewrite (mapM_select_ok _ (Forall_filter _ _ _ Hdim)).
Qed.

(** The first row of another dimension raises in the [WHERE] clause. *)
Lemma filterM_where_raise (tbl : list NameRecord) :
  Exists (fun c => ~ same_dimension query c) tbl ->
  exists e,
    filterM where_clause (map (fun c => (c, query)) tbl) = Raise e
    /\ DimensionMismatch e.
Proof.
  induction tbl as [|c tbl IH]; intros Hex.
  - inversion Hex.
  - cbn [map filterM].
    destruct (Nat.eq_dec (length (vector_embedding c)) (length query))
      as [Hc | Hc].
    + rewrite (where_clause_ok c Hc). cbn [bind].
      inversion Hex as [? ? Hhd | ? ? Htl]; subst.
      * now elim Hhd.
      * destruct (IH Htl) as [e [He Hdim]].
        exists e. now rewrite He.
    + rewrite (where_clause_raise c Hc). cbn [bind].
      eexists. split; [reflexivity | exact Hc].
Qed.

End Search.

Section OrderBy.

Lemma insert_desc_perm (r : SimilarityResult) (l : list SimilarityResult) :
  Permutation (insert_desc r l) (r :: l).
Proof.
  induction l as [|r' l IH]; simpl.
  - apply Permutation_refl.
  - destruct (spark.gt (cosine_sim r') (cosine_sim r)).
    + eapply perm_trans; [apply perm_skip, IH | apply perm_swap].
    + apply Permutation_refl.
Qed.

Lemma order_by_perm (l : list SimilarityResult) :
  Permutation (order_by_cosine_sim_desc l) l.
Proof.
  induction l as [|r l IH]; simpl.
  - apply perm_nil.
  - eapply perm_trans; [apply insert_desc_perm | now apply perm_skip].
Qed.

Lemma insert_desc_sorted (r : SimilarityResult) (l : list SimilarityResult) :
  StronglySorted desc l -> StronglySorted desc (insert_desc r l).
Proof.
  induction 1 as [|r' l Hsorted IH Hall]; simpl.
  - constructor; constructor.
  - destruct (spark.gt (cosine_sim r') (cosine_sim r)) eqn:Hgt.
    + constructor; [exact IH|].
      apply (Permutation_Forall (Permutation_sym (insert_desc_perm r l))).
      constructor; [now apply spark_facts.gt_ge | exact Hall].
    + assert (Hrr' : desc r r') by now apply spark_facts.not_gt_ge.
      constructor; [now constructor|].
      constructor; [exact Hrr'|].
      eapply Forall_impl; [|exact Hall].
      intros z Hz. exact (spark_facts.ge_trans _ _ _ Hrr' Hz).
Qed.

Lemma order_by_sorted (l : list SimilarityResult) :
  StronglySorted desc (order_by_cosine_sim_desc l).
Proof.
  induction l as [|r l IH]; simpl.
  - constructor.
  - now apply insert_desc_sorted.
Qed.

End OrderBy.

(** The specification's example: ["B"], of score [0.0], is left out. *)
Example search_example :
  search [1; 0] example_candidates
  = Ok [ {| t_cust_name := "A"; t_vector_embedding := [1; 0];
            q_emb := [1; 0]; cosine_sim := 1 |};
         {| t_cust_name := "C"; t_vector_embedding := [0.99; 0.14];
            q_emb := [1; 0]; cosine_sim := 0.99 |} ].
Proof. reflexivity. Qed.

(** C1, as stated, fails: it speaks of every collection of candidates, and
    with the specification's three candidates and a fourth of dimension 3
    the search returns no rows at all, although ["A"] scores [1.0], which
    is [> 0.95]. *)
Lemma search_not_for_every_collection :
  search [1; 0]
    (example_candidates
       ++ [ {| cust_name := "D"; vector_embedding := [0; 0; 1] |} ])
  = Raise (ValueError (ShapesNotAligned 3 2))
  /\ In {| cust_name := "A"; vector_embedding := [1; 0] |}
        (example_candidates
           ++ [ {| cust_name := "D"; vector_embedding := [0; 0; 1] |} ])
  /\ dot_product [1; 0] [1; 0] = Ok 1
  /\ spark.gt 1 threshold = true.
Proof.
  repeat split. now left.
Qed.

(** C1, amended. For a query embedding and candidates whose embeddings have
    its dimension, [dot_product] gives every candidate a score, and the
    search returns exactly the candidates whose score is [> 0.95] (each as
    often as it occurs in the table), in descending order of score.  [>] and
    the order are the SQL engine's on DOUBLE, in which NaN ranks above every
    number.  A returned score is never [==] to the threshold, and in the
    IEEE comparison too: a returned score that is not NaN is above the
    threshold, and every candidate whose score is above the threshold is
    returned. *)
Theorem search_above_threshold_descending
        (query : list float) (tbl : list NameRecord) :
  Forall (same_dimension query) tbl ->
  exists (s : NameRecord -> float) (rows : list SimilarityResult),
    scores_of query tbl s
    /\ search query tbl = Ok rows
    /\ Permutation rows
         (map (with_score query s)
              (filter (fun c => spark.gt (s c) threshold) tbl))
    /\ StronglySorted desc rows
    /\ Forall (fun r => (cosine_sim r =? threshold) = false) rows
    /\ Forall (fun r => is_nan (cosine_sim r) = false ->
                        (threshold <? cosine_sim r) = true) rows
    /\ (forall c, In c tbl -> (threshold <? s c) = true ->
                  In (with_score query s c) rows).
Proof.
  intros Hdim. exists (score query). rewrite (search_ok query tbl Hdim).
  eexists. split.
  { intros c Hc. apply dot_product_eq.
    exact (proj1 (Forall_forall _ _) Hdim c Hc). }
  split; [reflexivity|].
  change (with_score query (score query)) with (scored query).
  change (fun c => spark.gt (score query c) threshold)
    with (above_threshold query).
  assert (Hperm := order_by_perm
                     (map (scored query) (filter (above_threshold query) tbl))).
  assert (Hpass : Forall (fun r => spark.gt (cosine_sim r) threshold = true)
                    (order_by_cosine_sim_desc
                       (map (scored query)
                            (filter (above_threshold query) tbl)))).
  { apply (Permutation_Forall (Permutation_sym Hperm)).
    apply Forall_forall. intros r Hr.
    apply in_map_iff in Hr. destruct Hr as [c [<- Hc]].
    now apply filter_In in Hc. }
  split; [exact Hperm|].
  split; [apply order_by_sorted|].
  split; [|split].
  - eapply Forall_impl; [|exact Hpass]. intros r Hr.
    now apply spark_facts.gt_neq.
  - eapply Forall_impl; [|exact Hpass]. intros r Hr Hnan.
    now apply spark_facts.gt_ieee.
  - intros c Hc Habove.
    apply (Permutation_in _ (Permutation_sym Hperm)).
    apply in_map, filter_In. split; [exact Hc|].
    now apply spark_facts.ieee_gt.
Qed.

Lemma search_above_threshold_descending_witness :
  exists (s : NameRecord -> float) (rows : list SimilarityResult),
    scores_of [1; 0] example_candidates s
    /\ search [1; 0] example_candidates = Ok rows
    /\ Permutation rows
         (map (with_score [1; 0] s)
              (filter (fun c => spark.gt (s c) threshold) example_candidates))
    /\ StronglySorted desc rows
    /\ Forall (fun r => (cosine_sim r =? threshold) = false) rows
    /\ Forall (fun r => is_nan (cosine_sim r) = false ->
                        (threshold <? cosine_sim r) = true) rows
    /\ (forall c, In c example_candidates ->
                  (threshold <? s c) = true ->
                  In (with_score [1; 0] s c) rows).
Proof.
  apply (search_above_threshold_descending [1; 0] example_candidates).
  repeat constructor.
Defined.

(** C4, as stated, fails: with query [[1, 0]], candidate ["A"] of dimension 2
    and candidate ["B"] of dimension 3, the search raises the mismatch of
    ["B"] and returns no rows, although ["A"] alone is a match. *)
Lemma search_fails_on_one_mismatch :
  search [1; 0]
    [ {| cust_name := "A"; vector_embedding := [1; 0] |};
      {| cust_name := "B"; vector_embedding := [1; 0; 0] |} ]
  = Raise (ValueError (ShapesNotAligned 3 2))
  /\ search [1; 0] [ {| cust_name := "A"; vector_embedding := [1; 0] |} ]
     = Ok [ {| t_cust_name := "A"; t_vector_embedding := [1; 0];
               q_emb := [1; 0]; cosine_sim := 1 |} ].
Proof.
  split; reflexivity.
Qed.

(** C4, amended. When a candidate embedding has a length different from the
    query embedding, the dimension mismatch is not recovered: the whole
    search fails with it and returns no rows. *)
Theorem search_mismatch_fails_whole_search
        (query : list float) (tbl : list NameRecord) :
  Exists (fun c => length (vector_embedding c) <> length query) tbl ->
  exists e, search query tbl = Raise e /\ DimensionMismatch e.
Proof.
  intros Hex. destruct (filterM_where_raise query tbl Hex) as [e [He Hdim]].
  exists e. unfold search. now rewrite from_clause_single, He.
Qed.

Lemma search_mismatch_fails_whole_search_witness :
  exists e,
    search [1; 0]
      [ {| cust_name := "A"; vector_embedding := [1; 0] |};
        {| cust_name := "B"; vector_embedding := [1; 0; 0] |} ]
    = Raise e /\ DimensionMismatch e.
Proof.
  apply (search_mismatch_fails_whole_search [1; 0]).
  apply Exists_cons_tl, Exists_cons_hd. simpl. discriminate.
Defined.

(** * Further properties of the code *)

(** ** The sign of sums of squares *)

Section NonNegative.

(** Rounding keeps the sign it is given. *)
Lemma binary_round_aux_sign (s : bool) (m e : Z) (l : location) :
  match binary_round_aux prec emax s m e l with
  | S754_nan => True
  | S754_zero s' | S754_infinity s' | S754_finite s' _ _ => s' = s
  end.
Proof.
  unfold binary_round_aux.
  destruct (shr_fexp prec emax m e l) as [mrs' e'].
  destruct (shr_fexp prec emax _ e' loc_Exact) as [mrs'' e''].
  destruct (shr_m mrs'') as [|q|q]; [reflexivity| |exact I].
  now destruct (e'' <=? emax - prec)%Z.
Qed.

Lemma binary_round_nonneg (m : positive) (e : Z) :
  sf_nonneg (binary_round prec emax false m e).
Proof.
  unfold binary_round.
  destruct (shl_align m e _) as [mz ez].
  generalize (binary_round_aux_sign false (Zpos mz) ez loc_Exact).
  now destruct (binary_round_aux prec emax false (Zpos mz) ez loc_Exact).
Qed.

Lemma SF64mul_square_nonneg (x : spec_float) : sf_nonneg (SF64mul x x).
Proof.
  destruct x as [s|s| |s m e]; simpl; try apply xorb_nilpotent; try exact I.
  generalize (binary_round_aux_sign (xorb s s) (Zpos (m * m)) (e + e) loc_Exact).
  rewrite xorb_nilpotent.
  now destruct (binary_round_aux prec emax false (Zpos (m * m)) (e + e) loc_Exact).
Qed.

Lemma SF64add_nonneg (x y : spec_float) :
  sf_nonneg x -> sf_nonneg y -> sf_nonneg (SF64add x y).
Proof.
  destruct x as [sx|sx| |sx mx ex], y as [sy|sy| |sy my ey]; simpl;
    intros Hx Hy; subst; try exact I; try reflexivity.
  apply binary_round_nonneg.
Qed.

Lemma SF64sqrt_nonneg (x : spec_float) :
  sf_nonneg x -> sf_nonneg (SF64sqrt x).
Proof.
  destruct x as [s|s| |s m e]; simpl; intros Hx; subst; try exact I;
    try reflexivity.
  unfold SF64sqrt, SFsqrt.
  destruct (SFsqrt_core_binary prec emax (Zpos m) e) as [[mz ez] lz].
  generalize (binary_round_aux_sign false mz ez lz).
  now destruct (binary_round_aux prec emax false mz ez lz).
Qed.

Lemma fsum_squares_nonneg (v : list float) :
  forall acc : float,
    sf_nonneg (Prim2SF acc) ->
    sf_nonneg (Prim2SF (fold_left add (elementwise_products v v) acc)).
Proof.
  induction v as [|x v IH]; intros acc Hacc; simpl.
  - exact Hacc.
  - apply IH. rewrite add_spec, mul_spec.
    apply SF64add_nonneg; [exact Hacc | apply SF64mul_square_nonneg].
Qed.

(** What a clear sign bit means for the comparisons of Python. *)
Lemma sf_nonneg_not_negative (d : float) :
  sf_nonneg (Prim2SF d) ->
  (d <? 0) = false /\ (is_nan d = false -> (0 <=? d) = true).
Proof.
  unfold is_nan. rewrite ltb_spec, leb_spec, eqb_spec.
  change (Prim2SF 0) with (S754_zero false).
  unfold SFltb, SFleb, SFeqb.
  destruct (Prim2SF d) as [s|s| |s m e]; simpl; intros Hd; subst;
    split; try reflexivity; try discriminate.
Qed.

End NonNegative.

(** X1. The dot product of a vector with itself never fails and is never
    negative: it is not [< 0], and unless it is NaN it is [>= 0]. *)
Theorem dot_product_self_nonnegative (a : list float) :
  exists d,
    dot_product a a = Ok d
    /\ (d <? 0) = false
    /\ (is_nan d = false -> (0 <=? d) = true).
Proof.
  exists (fsum (elementwise_products a a)). split.
  - now apply dot_product_eq.
  - apply sf_nonneg_not_negative, fsum_squares_nonneg. reflexivity.
Qed.

(** X2. With the order left out or equal to [2], [vector_norm] never fails
    and never returns a negative number, whatever the vector holds. *)
Theorem vector_norm_2_nonnegative :
  forall (npy_pow : float -> float -> float) (v : list float),
  exists r,
    vector_norm npy_pow v None = Ok r
    /\ vector_norm npy_pow v (Some 2) = Ok r
    /\ (r <? 0) = false
    /\ (is_nan r = false -> (0 <=? r) = true).
Proof.
  intros npy_pow v. exists (sqrt (fsum (elementwise_products v v))).
  split; [apply vector_norm_2_sqrt_dot; now left|].
  split; [apply vector_norm_2_sqrt_dot; now right|].
  apply sf_nonneg_not_negative. rewrite sqrt_spec.
  apply SF64sqrt_nonneg, fsum_squares_nonneg. reflexivity.
Qed.

(** ** When [vector_norm] fails *)

Section NormFailure.

(** The orders that select the [max] and [min] branches are [==] to no
    finite number. *)
Lemma infinite_order_branches (p c : float) :
  (p =? infinity) = true \/ (p =? neg_infinity) = true ->
  (c <? infinity) = true -> (neg_infinity <? c) = true ->
  (p =? c) = false.
Proof.
  rewrite !eqb_spec, !ltb_spec.
  change (Prim2SF infinity) with (S754_infinity false).
  change (Prim2SF neg_infinity) with (S754_infinity true).
  unfold SFeqb, SFltb. sf_cases p; sf_cases c; simpl; intros [H | H];
    congruence.
Qed.

(** [-inf] is not [== inf]. *)
Lemma neg_infinity_neq_infinity (p : float) :
  (p =? neg_infinity) = true -> (p =? infinity) = false.
Proof.
  rewrite !eqb_spec.
  change (Prim2SF infinity) with (S754_infinity false).
  change (Prim2SF neg_infinity) with (S754_infinity true).
  unfold SFeqb. sf_cases p; simpl; congruence.
Qed.

End NormFailure.

(** X3. [vector_norm] can fail on one kind of call only: the empty vector
    with an infinite order, where an extremum of nothing is asked for, and
    then with numpy's zero-size [ValueError].  With order [-inf] the empty
    vector does fail; the default order never fails. *)
Theorem vector_norm_fails_only_on_empty_extremum :
  forall (npy_pow : float -> float -> float) (v : list float) (p : float),
    (forall e, vector_norm npy_pow v (Some p) = Raise e ->
               v = []
               /\ ((p =? infinity) = true \/ (p =? neg_infinity) = true)
               /\ e = ValueError ZeroSizeReduction)
    /\ (v = [] -> (p =? neg_infinity) = true ->
        vector_norm npy_pow v (Some p) = Raise (ValueError ZeroSizeReduction))
    /\ (exists r, vector_norm npy_pow v None = Ok r).
Proof.
  intros npy_pow v p. split; [|split].
  - intros e. unfold vector_norm, np.linalg.norm.
    destruct (p =? 2).
    { unfold np.dot. rewrite Nat.eqb_refl. discriminate. }
    destruct (p =? infinity); [discriminate|].
    destruct (p =? neg_infinity).
    { destruct v; simpl; [|discriminate].
      intros He. injection He as <-. repeat split. now right. }
    destruct (p =? 0); [discriminate|].
    destruct (p =? 1); discriminate.
  - intros -> Hp. unfold vector_norm, np.linalg.norm.
    rewrite (infinite_order_branches p 2 (or_intror Hp) eq_refl eq_refl).
    rewrite (neg_infinity_neq_infinity p Hp).
    now rewrite Hp.
  - eexists. apply vector_norm_2_sqrt_dot. now left.
Qed.

(** ** NaN and the IEEE order *)

Section FloatOrder.

Lemma is_nan_Prim2SF (x : float) :
  is_nan x = true <-> Prim2SF x = S754_nan.
Proof.
  unfold is_nan. rewrite eqb_spec. unfold SFeqb.
  destruct (Prim2SF x) as [s|s| |s m e]; simpl;
    rewrite ?Z.compare_refl, ?Pos.compare_cont_refl;
    try destruct s; simpl; split; congruence.
Qed.

Lemma is_nan_false_Prim2SF (x : float) :
  is_nan x = false <-> Prim2SF x <> S754_nan.
Proof.
  rewrite <- is_nan_Prim2SF. destruct (is_nan x); split; congruence.
Qed.

Lemma lex_compare_refl (a : Z * Z * Z) : lex_compare a a = Eq.
Proof.
  destruct a as [[a1 a2] a3]; simpl. now rewrite !Z.compare_refl.
Qed.

Lemma lex_compare_not_gt_trans (a b c : Z * Z * Z) :
  lex_compare a b <> Gt -> lex_compare b c <> Gt -> lex_compare a c <> Gt.
Proof.
  intros Hab Hbc.
  assert (H : lex_compare c a <> Lt).
  { apply lex_compare_not_lt_trans with (b := b).
    - rewrite (lex_compare_antisym b c). now destruct (lex_compare b c).
    - rewrite (lex_compare_antisym a b). now destruct (lex_compare a b). }
  rewrite (lex_compare_antisym c a). now destruct (lex_compare c a).
Qed.

(** The IEEE [<=] holds between two floats when neither is NaN and their
    keys are in order. *)
Lemma leb_key (x y : float) :
  (x <=? y) = true
  <-> is_nan x = false /\ is_nan y = false
      /\ lex_compare (key x) (key y) <> Gt.
Proof.
  rewrite !is_nan_false_Prim2SF. unfold key. rewrite leb_spec. unfold SFleb.
  destruct (Prim2SF x) as [sx|sx| |sx mx ex], (Prim2SF y) as [sy|sy| |sy my ey];
    try destruct sx; try destruct sy; simpl;
    try (split; [intros; repeat split; congruence | intros (_ & _ & H); congruence]);
    try (split; [discriminate | intros (H1 & H2 & _); congruence]).
  all: change (Pos.compare_cont Eq mx my) with (Pos.compare mx my);
    rewrite ?Z.compare_opp, 1?(Z.compare_antisym ex ey);
    destruct (ex ?= ey)%Z; simpl;
    try destruct (mx ?= my)%positive; simpl;
    (split; [intros; repeat split; congruence | intros (_ & _ & H); congruence]).
Qed.

Lemma leb_refl (x : float) : is_nan x = false -> (x <=? x) = true.
Proof.
  intros Hx. apply leb_key. repeat split; try assumption.
  now rewrite lex_compare_refl.
Qed.

Lemma leb_total (x y : float) :
  is_nan x = false -> is_nan y = false ->
  (y <=? x) = false -> (x <=? y) = true.
Proof.
  intros Hx Hy Hyx. apply leb_key. repeat split; try assumption.
  intros Hgt. assert (H : (y <=? x) = true); [|congruence].
  apply leb_key. repeat split; try assumption.
  rewrite (lex_compare_antisym (key x) (key y)), Hgt. discriminate.
Qed.

Lemma leb_trans (x y z : float) :
  (x <=? y) = true -> (y <=? z) = true -> (x <=? z) = true.
Proof.
  rewrite !leb_key. intros (Hx & _ & Hxy) (_ & Hz & Hyz).
  repeat split; try assumption.
  now apply lex_compare_not_gt_trans with (b := key y).
Qed.

Lemma abs_not_nan (x : float) : is_nan x = false -> is_nan (abs x) = false.
Proof.
  rewrite !is_nan_false_Prim2SF, abs_spec.
  now destruct (Prim2SF x).
Qed.

Lemma abs_nan (x : float) : is_nan x = true -> is_nan (abs x) = true.
Proof.
  rewrite !is_nan_Prim2SF, abs_spec. now intros ->.
Qed.

Lemma mul_nan_l (x y : float) : is_nan x = true -> is_nan (x * y) = true.
Proof.
  rewrite !is_nan_Prim2SF, mul_spec. now intros ->.
Qed.

Lemma mul_nan_r (x y : float) : is_nan y = true -> is_nan (x * y) = true.
Proof.
  rewrite !is_nan_Prim2SF, mul_spec. intros ->. now destruct (Prim2SF x).
Qed.

Lemma add_nan_l (x y : float) : is_nan x = true -> is_nan (x + y) = true.
Proof.
  rewrite !is_nan_Prim2SF, add_spec. now intros ->.
Qed.

Lemma add_nan_r (x y : float) : is_nan y = true -> is_nan (x + y) = true.
Proof.
  rewrite !is_nan_Prim2SF, add_spec. intros ->. now destruct (Prim2SF x).
Qed.

Lemma sqrt_nan (x : float) : is_nan x = true -> is_nan (sqrt x) = true.
Proof.
  rewrite !is_nan_Prim2SF, sqrt_spec. now intros ->.
Qed.

End FloatOrder.

(** ** Orders [inf] and [-inf] *)

Section Extremum.

Lemma maximum_not_nan (a b : float) :
  not_nan a ->
  np.maximum a b = if b <=? a then a else b.
Proof.
  unfold np.maximum, not_nan. intros ->. now rewrite orb_false_r.
Qed.

Lemma minimum_not_nan (a b : float) :
  not_nan a ->
  np.minimum a b = if a <=? b then a else b.
Proof.
  unfold np.minimum, not_nan. intros ->. now rewrite orb_false_r.
Qed.

(** The running maximum is one of the values seen and bounds them all. *)
Lemma fold_maximum (xs : list float) :
  forall acc : float,
    not_nan acc -> Forall not_nan xs ->
    let r := fold_left np.maximum xs acc in
    not_nan r /\ (r = acc \/ In r xs) /\ (acc <=? r) = true
    /\ Forall (fun x => (x <=? r) = true) xs.
Proof.
  induction xs as [|x xs IH]; intros acc Hacc Hxs; simpl.
  - repeat split; [exact Hacc | now left | now apply leb_refl | constructor].
  - inversion Hxs as [|? ? Hx Hxs']; subst.
    rewrite (maximum_not_nan acc x Hacc).
    destruct (x <=? acc) eqn:Hle.
    + destruct (IH acc Hacc Hxs') as (Hr & Hin & Hge & Hall).
      repeat split; try assumption.
      * destruct Hin as [-> | Hin]; [now left | right; now right].
      * constructor; [now apply leb_trans with (y := acc) | exact Hall].
    + destruct (IH x Hx Hxs') as (Hr & Hin & Hge & Hall).
      repeat split; try assumption.
      * right. destruct Hin as [-> | Hin]; [now left | now right].
      * apply leb_trans with (y := x); [now apply leb_total | exact Hge].
      * constructor; assumption.
Qed.

(** The running minimum is one of the values seen and is below them all. *)
Lemma fold_minimum (xs : list float) :
  forall acc : float,
    not_nan acc -> Forall not_nan xs ->
    let r := fold_left np.minimum xs acc in
    not_nan r /\ (r = acc \/ In r xs) /\ (r <=? acc) = true
    /\ Forall (fun x => (r <=? x) = true) xs.
Proof.
  induction xs as [|x xs IH]; intros acc Hacc Hxs; simpl.
  - repeat split; [exact Hacc | now left | now apply leb_refl | constructor].
  - inversion Hxs as [|? ? Hx Hxs']; subst.
    rewrite (minimum_not_nan acc x Hacc).
    destruct (acc <=? x) eqn:Hle.
    + destruct (IH acc Hacc Hxs') as (Hr & Hin & Hge & Hall).
      repeat split; try assumption.
      * destruct Hin as [-> | Hin]; [now left | right; now right].
      * constructor; [now apply leb_trans with (y := acc) | exact Hall].
    + destruct (IH x Hx Hxs') as (Hr & Hin & Hge & Hall).
      repeat split; try assumption.
      * right. destruct Hin as [-> | Hin]; [now left | now right].
      * apply leb_trans with (y := x); [exact Hge | now apply leb_total].
      * constructor; assumption.
Qed.

Lemma Forall_abs_not_nan (v : list float) :
  Forall not_nan v -> Forall not_nan (map abs v).
Proof.
  induction 1 as [|x v Hx _ IH]; simpl; constructor;
    [now apply abs_not_nan | exact IH].
Qed.

(** A NaN, once in the accumulator or met on the way, stays. *)
Lemma fold_maximum_nan (xs : list float) :
  forall acc : float,
    is_nan acc = true \/ Exists (fun x => is_nan x = true) xs ->
    is_nan (fold_left np.maximum xs acc) = true.
Proof.
  induction xs as [|x xs IH]; intros acc H; simpl.
  - destruct H as [H | H]; [exact H | inversion H].
  - apply IH. unfold np.maximum.
    destruct H as [H | H].
    + left. now rewrite H, orb_true_r.
    + inversion H as [? ? Hx | ? ? Hxs]; subst; [|now right].
      left. destruct ((x <=? acc) || is_nan acc) eqn:Hc; [|exact Hx].
      apply orb_true_iff in Hc. destruct Hc as [Hc | Hc]; [|exact Hc].
      apply leb_key in Hc. destruct Hc as (Hc & _). congruence.
Qed.

Lemma fold_minimum_nan (xs : list float) :
  forall acc : float,
    is_nan acc = true \/ Exists (fun x => is_nan x = true) xs ->
    is_nan (fold_left np.minimum xs acc) = true.
Proof.
  induction xs as [|x xs IH]; intros acc H; simpl.
  - destruct H as [H | H]; [exact H | inversion H].
  - apply IH. unfold np.minimum.
    destruct H as [H | H].
    + left. now rewrite H, orb_true_r.
    + inversion H as [? ? Hx | ? ? Hxs]; subst; [|now right].
      left. destruct ((acc <=? x) || is_nan acc) eqn:Hc; [|exact Hx].
      apply orb_true_iff in Hc. destruct Hc as [Hc | Hc]; [|exact Hc].
      apply leb_key in Hc. destruct Hc as (_ & Hc & _). congruence.
Qed.

(** Starting the maximum of absolute values from [0.0] changes nothing. *)
Lemma maximum_zero_abs (x : float) : np.maximum 0 (abs x) = abs x.
Proof.
  unfold np.maximum. change (is_nan 0) with false. rewrite orb_false_r.
  destruct (abs x <=? 0) eqn:H; [|reflexivity].
  apply Prim2SF_inj. revert H. rewrite leb_spec, abs_spec.
  change (Prim2SF 0) with (S754_zero false). unfold SFleb.
  destruct (Prim2SF x) as [[]|[]| |[] m e]; simpl; congruence.
Qed.

End Extremum.

(** X4. For a non-empty vector that holds no NaN, [vector_norm] with order
    [inf] returns the largest absolute value found in the vector, and with
    order [-inf] the smallest. *)
Theorem vector_norm_inf_is_extremum :
  forall (npy_pow : float -> float -> float) (v : list float),
    v <> [] -> Forall not_nan v ->
    (exists r,
        vector_norm npy_pow v (Some infinity) = Ok r
        /\ In r (map abs v)
        /\ Forall (fun x => (abs x <=? r) = true) v)
    /\ (exists r,
           vector_norm npy_pow v (Some neg_infinity) = Ok r
           /\ In r (map abs v)
           /\ Forall (fun x => (r <=? abs x) = true) v).
Proof.
  intros npy_pow v Hne Hv.
  destruct v as [|x v]; [now elim Hne|].
  assert (Habs := Forall_abs_not_nan _ Hv). simpl in Habs.
  inversion Habs as [|? ? Hx Hxs]; subst.
  unfold vector_norm, np.linalg.norm.
  change (infinity =? 2) with false. change (infinity =? infinity) with true.
  change (neg_infinity =? 2) with false.
  change (neg_infinity =? infinity) with false.
  change (neg_infinity =? neg_infinity) with true.
  cbv iota. unfold np.max_initial.
  cbn [map np.min bind fold_left]. rewrite maximum_zero_abs.
  split.
  - destruct (fold_maximum (map abs v) (abs x) Hx Hxs) as (_ & Hin & Hge & Hall).
    eexists. split; [reflexivity|]. split.
    + destruct Hin as [-> | Hin]; [now left | now right].
    + constructor; [exact Hge|]. now apply Forall_map in Hall.
  - destruct (fold_minimum (map abs v) (abs x) Hx Hxs) as (_ & Hin & Hge & Hall).
    eexists. split; [reflexivity|]. split.
    + destruct Hin as [-> | Hin]; [now left | now right].
    + constructor; [exact Hge|]. now apply Forall_map in Hall.
Qed.

Lemma vector_norm_inf_is_extremum_witness :
  (exists r,
      vector_norm no_pow [3; -4; 1] (Some infinity) = Ok r
      /\ In r (map abs [3; -4; 1])
      /\ Forall (fun x => (abs x <=? r) = true) [3; -4; 1])
  /\ (exists r,
         vector_norm no_pow [3; -4; 1] (Some neg_infinity) = Ok r
         /\ In r (map abs [3; -4; 1])
         /\ Forall (fun x => (r <=? abs x) = true) [3; -4; 1]).
Proof.
  apply (vector_norm_inf_is_extremum no_pow [3; -4; 1]).
  - discriminate.
  - repeat constructor.
Defined.

(** ** NaN in the operands *)

Section NaNPropagation.

Lemma fold_add_nan (xs : list float) :
  forall acc : float,
    is_nan acc = true \/ has_nan xs ->
    is_nan (fold_left add xs acc) = true.
Proof.
  induction xs as [|x xs IH]; intros acc H; simpl.
  - destruct H as [H | H]; [exact H | inversion H].
  - apply IH. destruct H as [H | H].
    + left. now apply add_nan_l.
    + inversion H as [? ? Hx | ? ? Hxs]; subst;
        [left; now apply add_nan_r | now right].
Qed.

Lemma elementwise_products_nan (a : list float) :
  forall b : list float,
    length a = length b -> has_nan a \/ has_nan b ->
    has_nan (elementwise_products a b).
Proof.
  unfold has_nan.
  induction a as [|x a IH]; intros [|y b] Hlen H; simpl in *;
    try discriminate.
  - destruct H as [H | H]; inversion H.
  - injection Hlen as Hlen.
    destruct H as [H | H]; inversion H as [? ? Hhd | ? ? Htl]; subst.
    + left. now apply mul_nan_l.
    + right. apply IH; [exact Hlen | now left].
    + left. now apply mul_nan_r.
    + right. apply IH; [exact Hlen | now right].
Qed.

Lemma map_abs_nan (v : list float) : has_nan v -> has_nan (map abs v).
Proof.
  unfold has_nan. induction 1 as [x v Hx | x v _ IH]; simpl.
  - left. now apply abs_nan.
  - now right.
Qed.

End NaNPropagation.

(** X5. A NaN anywhere in either operand makes the dot product of two
    vectors of one length NaN. *)
Theorem dot_product_nan (a b : list float) :
  length a = length b -> has_nan a \/ has_nan b ->
  exists d, dot_product a b = Ok d /\ is_nan d = true.
Proof.
  intros Hlen Hnan. exists (fsum (elementwise_products a b)). split.
  - now apply dot_product_eq.
  - apply fold_add_nan. right. now apply elementwise_products_nan.
Qed.

Lemma dot_product_nan_witness :
  exists d, dot_product [1; nan] [2; 3] = Ok d /\ is_nan d = true.
Proof.
  apply (dot_product_nan [1; nan] [2; 3]).
  - reflexivity.
  - left. apply Exists_cons_tl, Exists_cons_hd. reflexivity.
Defined.

(** X6. A NaN among the elements makes the norm NaN for the default order
    and for the orders [2], [1], [inf] and [-inf]: no order of these hides
    it. *)
Theorem vector_norm_nan :
  forall (npy_pow : float -> float -> float) (v : list float),
    has_nan v ->
    Forall (fun ord =>
              exists r, vector_norm npy_pow v ord = Ok r /\ is_nan r = true)
           [None; Some 2; Some 1; Some infinity; Some neg_infinity].
Proof.
  intros npy_pow v Hnan.
  assert (Hsq : is_nan (sqrt (fsum (elementwise_products v v))) = true).
  { apply sqrt_nan, fold_add_nan. right.
    apply elementwise_products_nan; [reflexivity | now left]. }
  repeat constructor.
  - eexists. split; [apply vector_norm_2_sqrt_dot; now left | exact Hsq].
  - eexists. split; [apply vector_norm_2_sqrt_dot; now right | exact Hsq].
  - eexists. split; [reflexivity|].
    apply fold_add_nan. right. now apply map_abs_nan.
  - apply map_abs_nan in Hnan. unfold vector_norm, np.linalg.norm.
    change (infinity =? 2) with false. change (infinity =? infinity) with true.
    cbv iota. eexists. split; [reflexivity|].
    apply fold_maximum_nan. now right.
  - apply map_abs_nan in Hnan. unfold vector_norm, np.linalg.norm.
    change (neg_infinity =? 2) with false.
    change (neg_infinity =? infinity) with false.
    change (neg_infinity =? neg_infinity) with true.
    cbv iota. destruct (map abs v) as [|x xs]; [inversion Hnan|].
    eexists. split; [reflexivity|]. apply fold_minimum_nan.
    inversion Hnan; subst; [now left | now right].
Qed.

Lemma vector_norm_nan_witness :
  Forall (fun ord =>
            exists r, vector_norm no_pow [3; nan] ord = Ok r
                      /\ is_nan r = true)
         [None; Some 2; Some 1; Some infinity; Some neg_infinity].
Proof.
  apply (vector_norm_nan no_pow [3; nan]).
  apply Exists_cons_tl, Exists_cons_hd. reflexivity.
Defined.

(** ** More on the search cell *)

Section SearchFacts.

Lemma key_nan (x : float) : is_nan x = true -> key x = (3, 0, 0)%Z.
Proof.
  rewrite is_nan_Prim2SF. unfold key. now intros ->.
Qed.

Lemma key_not_nan (x : float) :
  is_nan x = false -> (fst (fst (key x)) < 3)%Z.
Proof.
  rewrite is_nan_false_Prim2SF. unfold key.
  destruct (Prim2SF x) as [[]|[]| |[] m e]; simpl; intros H;
    try lia; congruence.
Qed.

Lemma gt_nan (x y : float) :
  is_nan x = true -> is_nan y = false -> spark.gt x y = true.
Proof.
  intros Hx Hy. unfold spark.gt. rewrite compareDoubles_key, (key_nan x Hx).
  assert (H := key_not_nan y Hy).
  destruct (key y) as [[c e] m]. cbn -[Z.compare] in *.
  destruct (Z.compare_spec 3 c); solve [reflexivity | lia].
Qed.

Lemma ge_nan_is_nan (x y : float) :
  is_nan y = true -> spark.ge x y = true -> is_nan x = true.
Proof.
  intros Hy. unfold spark.ge. rewrite compareDoubles_key, (key_nan y Hy).
  destruct (is_nan x) eqn:Hx; [reflexivity|].
  assert (H := key_not_nan x Hx).
  destruct (key x) as [[c e] m]. cbn -[Z.compare] in *.
  destruct (Z.compare_spec c 3); solve [discriminate | lia].
Qed.

Lemma ge_refl (x : float) : spark.ge x x = true.
Proof.
  unfold spark.ge. now rewrite compareDoubles_key, lex_compare_refl.
Qed.

(** The first row of a sorted result scores at least as high as any row. *)
Lemma sorted_head_ge (r : SimilarityResult) (rest : list SimilarityResult) :
  StronglySorted desc (r :: rest) ->
  forall r', In r' (r :: rest) -> desc r r'.
Proof.
  intros Hs r' [<- | Hin].
  - apply ge_refl.
  - inversion Hs as [|? ? _ Hall]; subst.
    now apply (proj1 (Forall_forall _ _) Hall).
Qed.

(** A statement that returns has met no row of another dimension. *)
Lemma search_ok_dimension (query : list float) (tbl : list NameRecord)
      (rows : list SimilarityResult) :
  search query tbl = Ok rows -> Forall (same_dimension query) tbl.
Proof.
  intros Hs. apply Forall_forall. intros c Hc.
  destruct (Nat.eq_dec (length (vector_embedding c)) (length query))
    as [Hd | Hd]; [exact Hd|].
  assert (Hex : Exists (fun c => ~ same_dimension query c) tbl).
  { apply Exists_exists. now exists c. }
  destruct (filterM_where_raise query tbl Hex) as [e [He _]].
  unfold search in Hs. rewrite from_clause_single, He in Hs. discriminate.
Qed.

End SearchFacts.

(** X7. The first row of a search result is a best match of the whole table:
    no candidate, returned or not, gets from [dot_product] a score higher
    than the first row's (in the SQL engine's order on DOUBLE). *)
Theorem search_first_row_is_best
        (query : list float) (tbl : list NameRecord)
        (r : SimilarityResult) (rest : list SimilarityResult) :
  search query tbl = Ok (r :: rest) ->
  Forall (fun c =>
            exists s,
              dot_product (vector_embedding c) query = Ok s
              /\ spark.ge (cosine_sim r) s = true)
         tbl.
Proof.
  intros Hs. assert (Hdim := search_ok_dimension _ _ _ Hs).
  rewrite (search_ok query tbl Hdim) in Hs. injection Hs as Hs.
  assert (Hsorted : StronglySorted desc (r :: rest)).
  { rewrite <- Hs. apply order_by_sorted. }
  assert (Hperm : Permutation (r :: rest)
                    (map (scored query) (filter (above_threshold query) tbl))).
  { rewrite <- Hs. apply order_by_perm. }
  assert (Hr : spark.gt (cosine_sim r) threshold = true).
  { assert (Hin : In r (map (scored query)
                            (filter (above_threshold query) tbl))).
    { apply (Permutation_in _ Hperm). now left. }
    apply in_map_iff in Hin. destruct Hin as [c [<- Hc]].
    now apply filter_In in Hc. }
  apply Forall_forall. intros c Hc.
  exists (score query c). split.
  { apply dot_product_eq. exact (proj1 (Forall_forall _ _) Hdim c Hc). }
  destruct (above_threshold query c) eqn:Habove.
  - apply (sorted_head_ge r rest Hsorted (scored query c)).
    apply (Permutation_in _ (Permutation_sym Hperm)).
    apply in_map, filter_In. now split.
  - apply spark_facts.ge_trans with (y := threshold).
    + now apply spark_facts.gt_ge.
    + now apply spark_facts.not_gt_ge.
Qed.

Lemma search_first_row_is_best_witness :
  Forall (fun c =>
            exists s,
              dot_product (vector_embedding c) [1; 0] = Ok s
              /\ spark.ge
                   (cosine_sim {| t_cust_name := "A";
                                  t_vector_embedding := [1; 0];
                                  q_emb := [1; 0]; cosine_sim := 1 |})
                   s = true)
         example_candidates.
Proof.
  apply (search_first_row_is_best [1; 0] example_candidates _
           [ {| t_cust_name := "C"; t_vector_embedding := [0.99; 0.14];
                q_emb := [1; 0]; cosine_sim := 0.99 |} ]).
  reflexivity.
Defined.

(** X8. The order of the rows in the stored table does not change which rows
    a search returns: on a reordered table it returns the same rows, up to
    the order of rows of equal rank. *)
Theorem search_table_order_irrelevant
        (query : list float) (tbl tbl' : list NameRecord) :
  Permutation tbl tbl' ->
  Forall (same_dimension query) tbl ->
  exists rows rows',
    search query tbl = Ok rows
    /\ search query tbl' = Ok rows'
    /\ Permutation rows rows'
    /\ StronglySorted desc rows /\ StronglySorted desc rows'.
Proof.
  intros Hperm Hdim.
  assert (Hdim' := Permutation_Forall Hperm Hdim).
  rewrite (search_ok query tbl Hdim), (search_ok query tbl' Hdim').
  do 2 eexists. split; [reflexivity|]. split; [reflexivity|].
  split; [|split; apply order_by_sorted].
  eapply perm_trans; [apply order_by_perm|].
  eapply perm_trans; [|apply Permutation_sym, order_by_perm].
  apply Permutation_map.
  clear Hdim Hdim'. induction Hperm; simpl.
  - constructor.
  - destruct (above_threshold query x); [now constructor | exact IHHperm].
  - destruct (above_threshold query x), (above_threshold query y);
      try apply Permutation_refl. apply perm_swap.
  - now apply perm_trans with (l' := filter (above_threshold query) l').
Qed.

Lemma search_table_order_irrelevant_witness :
  exists rows rows',
    search [1; 0] example_candidates = Ok rows
    /\ search [1; 0] (rev example_candidates) = Ok rows'
    /\ Permutation rows rows'
    /\ StronglySorted desc rows /\ StronglySorted desc rows'.
Proof.
  apply (search_table_order_irrelevant [1; 0] example_candidates
           (rev example_candidates)).
  - apply Permutation_rev.
  - repeat constructor.
Defined.

(** X9. Whatever the table, when a search returns, it returns no more rows
    than the table has, and each row is consistent: it carries the query, the
    name and embedding of a row of the table, and as [cosine_sim] what
    [dot_product] gives on the two vectors the row shows. *)
Theorem search_rows_consistent
        (query : list float) (tbl : list NameRecord)
        (rows : list SimilarityResult) :
  search query tbl = Ok rows ->
  length rows <= length tbl
  /\ Forall (fun r =>
               q_emb r = query
               /\ dot_product (t_vector_embedding r) (q_emb r)
                  = Ok (cosine_sim r)
               /\ exists c, In c tbl
                            /\ t_cust_name r = cust_name c
                            /\ t_vector_embedding r = vector_embedding c)
            rows.
Proof.
  intros Hs. assert (Hdim := search_ok_dimension _ _ _ Hs).
  rewrite (search_ok query tbl Hdim) in Hs. injection Hs as Hs.
  assert (Hperm : Permutation rows
                    (map (scored query) (filter (above_threshold query) tbl))).
  { rewrite <- Hs. apply order_by_perm. }
  split.
  - rewrite (Permutation_length Hperm), length_map. apply filter_length_le.
  - apply (Permutation_Forall (Permutation_sym Hperm)).
    apply Forall_forall. intros r Hr.
    apply in_map_iff in Hr. destruct Hr as [c [<- Hc]].
    apply filter_In in Hc. destruct Hc as [Hc _].
    split; [reflexivity|]. split.
    + apply dot_product_eq. exact (proj1 (Forall_forall _ _) Hdim c Hc).
    + exists c. now repeat split.
Qed.

Lemma search_rows_consistent_witness :
  length [ {| t_cust_name := "A"; t_vector_embedding := [1; 0];
              q_emb := [1; 0]; cosine_sim := 1 |};
           {| t_cust_name := "C"; t_vector_embedding := [0.99; 0.14];
              q_emb := [1; 0]; cosine_sim := 0.99 |} ]
  <= length example_candidates
  /\ Forall (fun r =>
               q_emb r = [1; 0]
               /\ dot_product (t_vector_embedding r) (q_emb r)
                  = Ok (cosine_sim r)
               /\ exists c, In c example_candidates
                            /\ t_cust_name r = cust_name c
                            /\ t_vector_embedding r = vector_embedding c)
            [ {| t_cust_name := "A"; t_vector_embedding := [1; 0];
                 q_emb := [1; 0]; cosine_sim := 1 |};
              {| t_cust_name := "C"; t_vector_embedding := [0.99; 0.14];
                 q_emb := [1; 0]; cosine_sim := 0.99 |} ].
Proof.
  apply (search_rows_consistent [1; 0] example_candidates). reflexivity.
Defined.

(** X10. A NaN in a candidate's embedding, or in the query, puts that
    candidate into the result, and a NaN score at the top of it: in the SQL
    engine's order NaN passes [> 0.95] and ranks first. *)
Theorem search_nan_candidate_returned_first
        (query : list float) (tbl : list NameRecord) (c : NameRecord) :
  Forall (same_dimension query) tbl ->
  In c tbl ->
  has_nan (vector_embedding c) \/ has_nan query ->
  exists r rest,
    search query tbl = Ok (r :: rest)
    /\ is_nan (cosine_sim r) = true
    /\ In (scored query c) (r :: rest)
    /\ is_nan (cosine_sim (scored query c)) = true.
Proof.
  intros Hdim Hc Hnan.
  assert (Hscore : is_nan (score query c) = true).
  { apply fold_add_nan. right. apply elementwise_products_nan; [|exact Hnan].
    exact (proj1 (Forall_forall _ _) Hdim c Hc). }
  rewrite (search_ok query tbl Hdim).
  assert (Hperm := order_by_perm
                     (map (scored query) (filter (above_threshold query) tbl))).
  assert (Hsorted := order_by_sorted
                       (map (scored query) (filter (above_threshold query) tbl))).
  assert (Hin : In (scored query c)
                   (order_by_cosine_sim_desc
                      (map (scored query)
                           (filter (above_threshold query) tbl)))).
  { apply (Permutation_in _ (Permutation_sym Hperm)).
    apply in_map, filter_In. split; [exact Hc|].
    apply gt_nan; [exact Hscore | reflexivity]. }
  destruct (order_by_cosine_sim_desc _) as [|r rest]; [inversion Hin|].
  exists r, rest. split; [reflexivity|]. split; [|split; assumption].
  apply (ge_nan_is_nan _ (cosine_sim (scored query c)) Hscore).
  exact (sorted_head_ge r rest Hsorted _ Hin).
Qed.

Lemma search_nan_candidate_returned_first_witness :
  exists r rest,
    search [1; 0]
      [ {| cust_name := "A"; vector_embedding := [1; 0] |};
        {| cust_name := "N"; vector_embedding := [nan; 0] |} ]
    = Ok (r :: rest)
    /\ is_nan (cosine_sim r) = true
    /\ In (scored [1; 0] {| cust_name := "N"; vector_embedding := [nan; 0] |})
          (r :: rest)
    /\ is_nan (cosine_sim
                 (scored [1; 0]
                    {| cust_name := "N"; vector_embedding := [nan; 0] |}))
       = true.
Proof.
  apply (search_nan_candidate_returned_first [1; 0]).
  - repeat constructor.
  - right. now left.
  - left. apply Exists_cons_hd. reflexivity.
Defined.

(** ** From the names to the search result *)

Section Pipeline.

Variable ai_query : string -> string -> list float.

Lemma build_vector_column_dimension (names : list string) :
  Forall (notebook.embeds_like_query ai_query) names
  <-> Forall (same_dimension (notebook.query_embedding ai_query))
             (notebook.build_vector_column ai_query names).
Proof.
  unfold notebook.build_vector_column. rewrite Forall_map. reflexivity.
Qed.

Lemma Permutation_filter_length {A : Type} (f : A -> bool) (l l' : list A) :
  Permutation l l' -> length (filter f l) = length (filter f l').
Proof.
  induction 1 as [|x l l' _ IH|x y l|l l' l'' _ IH1 _ IH2]; simpl.
  - reflexivity.
  - destruct (f x); simpl; now rewrite IH.
  - destruct (f x), (f y); reflexivity.
  - now rewrite IH1.
Qed.

(** For a name the embedder gives the query's dimension, matching is the
    [WHERE] clause on its row. *)
Lemma name_matches_above (n : string) :
  notebook.embeds_like_query ai_query n ->
  notebook.name_matches ai_query n
  = above_threshold (notebook.query_embedding ai_query)
      {| cust_name := n;
         vector_embedding := ai_query "databricks-gte-large-en" n |}.
Proof.
  intros Hn. unfold notebook.name_matches.
  now rewrite (dot_product_eq _ _ Hn).
Qed.

Lemma filter_name_matches (names : list string) :
  Forall (notebook.embeds_like_query ai_query) names ->
  map cust_name
      (filter (above_threshold (notebook.query_embedding ai_query))
              (notebook.build_vector_column ai_query names))
  = filter (notebook.name_matches ai_query) names.
Proof.
  induction 1 as [|m names Hm _ IH]; simpl; [reflexivity|].
  rewrite (name_matches_above m Hm).
  destruct (above_threshold _ _); simpl; now rewrite IH.
Qed.

(** Among the scored matches, a name is counted as often as it is stored
    when its embedding passes the threshold, and not at all otherwise. *)
Lemma times_returned_matches (n : string) (names : list string) :
  Forall (notebook.embeds_like_query ai_query) names ->
  notebook.times_returned n
    (map (scored (notebook.query_embedding ai_query))
         (filter (above_threshold (notebook.query_embedding ai_query))
                 (notebook.build_vector_column ai_query names)))
  = if notebook.name_matches ai_query n
    then count_occ string_dec names n
    else 0%nat.
Proof.
  unfold notebook.times_returned.
  induction 1 as [|m names Hm _ IH]; simpl.
  - now destruct (notebook.name_matches ai_query n).
  - rewrite <- (name_matches_above m Hm).
    destruct (string_dec m n) as [-> | Hmn].
    + destruct (notebook.name_matches ai_query n) eqn:Hgt; simpl.
      * rewrite String.eqb_refl. simpl. now rewrite IH.
      * exact IH.
    + destruct (notebook.name_matches ai_query m); simpl.
      * apply String.eqb_neq in Hmn. rewrite Hmn. exact IH.
      * exact IH.
Qed.

End Pipeline.



